(** * The [average] operator of rxjs: a running weighted average

    Shallow embedding of [src/internal/operators/average.ts].

    The operator subscribes to an upstream sequence, projects every item to
    a numeric value and a numeric weight, folds them into a running weighted
    average with an incremental update, and pushes notifications to the
    downstream subscriber.

    Layout of the development:
    - [Number]: the arithmetic of JavaScript numbers, as an interface with
      two instances, binary64 floating point (what the program runs on) and
      canonical rationals (exact arithmetic, used to relate the incremental
      update to the textbook weighted mean);
    - the JavaScript values, projections and completions the operator sees;
    - [average], [averageOperation], [AverageOperator], [AverageSubscriber]
      with [_next] and [_complete], translated from the source;
    - the [Subscriber] base class, which is not among the sources;
    - the theorems. *)

From Stdlib Require Import String.
From Stdlib Require Import List Bool Arith Lia.
From Stdlib Require Import QArith Qcanon.
From Stdlib Require Import Floats.
Import ListNotations.

Set Implicit Arguments.

(** ** Numbers *)

(** The operations [_next] performs on numbers ([+], [-], [*], [/], the
    literals [0] and [1]) and the test [ToBoolean] makes on a number
    (used by [thisArg || this]). *)
Class Number (num : Type) : Type := {
  num_zero : num;
  num_one : num;
  num_add : num -> num -> num;
  num_sub : num -> num -> num;
  num_mul : num -> num -> num;
  num_div : num -> num -> num;
  falsy : num -> bool
}.

Declare Scope num_scope.
Delimit Scope num_scope with num.
Infix "+" := num_add : num_scope.
Infix "-" := num_sub : num_scope.
Infix "*" := num_mul : num_scope.
Infix "/" := num_div : num_scope.
Notation "0" := num_zero : num_scope.
Notation "1" := num_one : num_scope.

(** JavaScript numbers are IEEE-754 binary64 values, and so are Rocq's
    primitive floats: this instance is the arithmetic the program runs on.
    A number is falsy when it is [+0], [-0] or [NaN]. *)
#[export] Instance binary64 : Number float := {
  num_zero := 0%float;
  num_one := 1%float;
  num_add := PrimFloat.add;
  num_sub := PrimFloat.sub;
  num_mul := PrimFloat.mul;
  num_div := PrimFloat.div;
  falsy := fun x => (PrimFloat.eqb x 0%float || PrimFloat.is_nan x)%bool
}.

(** Exact arithmetic: the same program read over the rationals, where no
    operation rounds. *)
#[export] Instance exact : Number Qc := {
  num_zero := 0%Qc;
  num_one := 1%Qc;
  num_add := Qcplus;
  num_sub := Qcminus;
  num_mul := Qcmult;
  num_div := Qcdiv;
  falsy := fun x => Qeq_bool x 0%Qc
}.

Section Average.

Context {num : Type} {N : Number num}.

(** The state a projection can reach through its closure (the test suite's
    projections count their own invocations in a captured variable). *)
Variable World : Type.

(** ** JavaScript values *)

(** The items of the source are arbitrary values ([T] is erased at run
    time); so is whatever a projection throws. *)
Inductive JsValue : Type :=
| JsUndefined
| JsNull
| JsBoolean (b : bool)
| JsNumber (x : num)
| JsString (s : String.string)
| JsObject (ref : nat)
| JsTypeError (msg : String.string).

(** [ToBoolean], as applied by [||]. *)
Definition truthy (v : JsValue) : bool :=
  match v with
  | JsUndefined | JsNull => false
  | JsBoolean b => b
  | JsNumber x => negb (falsy x)
  | JsString s => negb (String.eqb s String.EmptyString)
  | JsObject _ | JsTypeError _ => true
  end.

(** What a call evaluates to: a number, or an exception. *)
Inductive Completion : Type :=
| Return (x : num)
| Throw (err : JsValue).

(** The receiver a projection is called on: [thisArg || this]. *)
Inductive Receiver : Type :=
| BoundTo (thisArg : JsValue)
| TheSubscriber.

(** [(value: T, index: number) => number], called on a receiver; it may
    throw and it may update the state it captured. *)
Definition Projection : Type :=
  Receiver -> JsValue -> nat -> World -> World * Completion.

(** What the downstream subscriber is sent. *)
Inductive Notification : Type :=
| Next (x : num)
| Error (err : JsValue)
| Complete.

(** ** The downstream subscriber *)

(** Modelled from the spec: the [Subscriber] base class ([../Subscriber]),
    which is not among the sources.  The downstream subscriber is the
    [destination] the operator pushes to.  The spec gives a subscription one
    active state and terminal states with "no transitions out of a terminal
    state", and has every failure "surfaced to the subscriber exactly once":
    [stopped] is the terminal flag, [received] the notifications accepted so
    far, oldest first. *)
Record Downstream : Type := mkDownstream {
  stopped : bool;
  received : list Notification
}.

(** ** AverageSubscriber *)

(** The fields of [AverageSubscriber].  [destination], [isStopped] and
    [closed] are inherited from [Subscriber]; the others are declared in
    the class.  [project] is typed as a function by the source, but
    [averageOperation] passes it on unchecked in its last branch, so at run
    time it can be something that is not callable: [None]. *)
Record AverageSubscriber : Type := mkAverageSubscriber {
  destination : Downstream;
  isStopped : bool;
  closed : bool;
  count : nat;
  value : num;
  sumWeights : num;
  thisArg : Receiver;
  isRunning : bool;
  project : option Projection;
  projectWeight : Projection
}.

Definition set_destination (d : Downstream) (this : AverageSubscriber) :=
  mkAverageSubscriber d (isStopped this) (closed this) (count this)
    (value this) (sumWeights this) (thisArg this) (isRunning this)
    (project this) (projectWeight this).

Definition set_isStopped (b : bool) (this : AverageSubscriber) :=
  mkAverageSubscriber (destination this) b (closed this) (count this)
    (value this) (sumWeights this) (thisArg this) (isRunning this)
    (project this) (projectWeight this).

Definition set_closed (b : bool) (this : AverageSubscriber) :=
  mkAverageSubscriber (destination this) (isStopped this) b (count this)
    (value this) (sumWeights this) (thisArg this) (isRunning this)
    (project this) (projectWeight this).

Definition set_isRunning (b : bool) (this : AverageSubscriber) :=
  mkAverageSubscriber (destination this) (isStopped this) (closed this)
    (count this) (value this) (sumWeights this) (thisArg this) b
    (project this) (projectWeight this).

(** The three assignments of [_next]:
    [sumWeights += w; value = ...; count++]. *)
Definition set_average (c : nat) (v sw : num) (this : AverageSubscriber) :=
  mkAverageSubscriber (destination this) (isStopped this) (closed this)
    c v sw (thisArg this) (isRunning this)
    (project this) (projectWeight this).

(** [thisArg || this]. *)
Definition receiver (arg : JsValue) : Receiver :=
  if truthy arg then BoundTo arg else TheSubscriber.

(** The constructor: [super(destination)], [thisArg || this],
    [isRunning = true], and the field initialisers. *)
Definition new_AverageSubscriber (dest : Downstream)
    (proj : option Projection) (projWeight : Projection)
    (arg : JsValue) : AverageSubscriber :=
  {| destination := dest;
     isStopped := false;
     closed := false;
     count := 0;
     value := 0%num;
     sumWeights := 0%num;
     thisArg := receiver arg;
     isRunning := true;
     project := proj;
     projectWeight := projWeight |}.

(** ** The Subscriber base class *)

(** Modelled from the spec: [Subscriber.unsubscribe], not among the
    sources.  "Cancellation must be synchronous and idempotent": a closed
    subscriber is left as it is, otherwise it stops and closes.  The
    subscription [AverageOperator.call] returns is this subscriber, so
    [closed] is also the cancellation of the upstream source. *)
Definition unsubscribe (this : AverageSubscriber) : AverageSubscriber :=
  if closed this then this
  else set_closed true (set_isStopped true this).

(** Modelled from the spec: [destination.next], not among the sources.  A
    subscriber in a terminal state accepts nothing. *)
Definition destination_next (x : num) (this : AverageSubscriber)
    : AverageSubscriber :=
  let d := destination this in
  if stopped d then this
  else set_destination (mkDownstream false (received d ++ [Next x])) this.

(** Modelled from the spec: [destination.error], not among the sources.
    A failure "is surfaced to the subscriber exactly once and terminates
    the subscription": the destination records the error and stops, and
    its teardown unsubscribes the operator's subscriber, which [super]
    registered with it. *)
Definition destination_error (err : JsValue) (this : AverageSubscriber)
    : AverageSubscriber :=
  let d := destination this in
  if stopped d then this
  else unsubscribe
         (set_destination (mkDownstream true (received d ++ [Error err]))
            this).

(** Modelled from the spec: [destination.complete], not among the
    sources; as [destination_error], with the completion signal. *)
Definition destination_complete (this : AverageSubscriber)
    : AverageSubscriber :=
  let d := destination this in
  if stopped d then this
  else unsubscribe
         (set_destination (mkDownstream true (received d ++ [Complete]))
            this).

(** Modelled from the spec: the downstream subscriber unsubscribing, not
    among the sources.  "The cancellation must propagate upstream": the
    destination stops and takes the operator's subscriber with it. *)
Definition destination_unsubscribe (this : AverageSubscriber)
    : AverageSubscriber :=
  let d := destination this in
  unsubscribe (set_destination (mkDownstream true (received d)) this).

(** [f.call(receiver, value, index)]: calling what is not a function
    throws a [TypeError]. *)
Definition call_projection (f : option Projection) (r : Receiver)
    (x : JsValue) (index : nat) (w : World) : World * Completion :=
  match f with
  | Some g => g r x index w
  | None =>
    (w, Throw (JsTypeError "this.project.call is not a function"%string))
  end.

(** [AverageSubscriber._next]: both projections first, then the
    incremental update, then the emission when running; what a projection
    throws inside the [try] goes to [destination.error].  (The recording
    destination of this model does not throw.) *)
Definition _next (x : JsValue) (st : AverageSubscriber * World)
    : AverageSubscriber * World :=
  let (this, w0) := st in
  match call_projection (project this) (thisArg this) x (count this) w0 with
  | (w1, Throw err) => (destination_error err this, w1)
  | (w1, Return v) =>
    match projectWeight this (thisArg this) x (count this) w1 with
    | (w2, Throw err) => (destination_error err this, w2)
    | (w2, Return w) =>
      let sw := (sumWeights this + w)%num in
      let avg := (value this + (w / sw) * (v - value this))%num in
      let this' := set_average (S (count this)) avg sw this in
      if isRunning this' then (destination_next avg this', w2)
      else (this', w2)
    end
  end.

(** [AverageSubscriber._complete]. *)
Definition _complete (this : AverageSubscriber) : AverageSubscriber :=
  let this' :=
    if negb (isRunning this) then destination_next (value this) this
    else this in
  destination_complete this'.

(** Modelled from the spec: [Subscriber._error], which the class inherits
    and which is not among the sources.  An upstream error is "forwarded
    unchanged" and "terminates the subscription". *)
Definition _error (err : JsValue) (this : AverageSubscriber)
    : AverageSubscriber :=
  unsubscribe (destination_error err this).

(** Modelled from the spec: [Subscriber.next], not among the sources.
    With [error] and [complete] below it guards the state machine
    ("no transitions out of a terminal state"): a stopped subscriber
    ignores the item, an active one hands it to [_next]. *)
Definition next (x : JsValue) (st : AverageSubscriber * World)
    : AverageSubscriber * World :=
  if isStopped (fst st) then st else _next x st.

(** Modelled from the spec: [Subscriber.error], not among the sources.
    ACTIVE to ERRORED "on an upstream error": the subscriber stops, then
    [_error] runs; a stopped subscriber ignores the error. *)
Definition error (err : JsValue) (this : AverageSubscriber)
    : AverageSubscriber :=
  if isStopped this then this else _error err (set_isStopped true this).

(** Modelled from the spec: [Subscriber.complete], not among the
    sources.  ACTIVE to COMPLETED "on upstream completion": the
    subscriber stops, then [_complete] runs; a stopped subscriber ignores
    the completion. *)
Definition complete (this : AverageSubscriber) : AverageSubscriber :=
  if isStopped this then this else _complete (set_isStopped true this).

(** ** The operator *)

(** [identity]: [isNumber(x) ? x : 0], where [isNumber] is
    [typeof x === 'number']. *)
Definition identity : Projection :=
  fun _ x _ w =>
    match x with
    | JsNumber n => (w, Return n)
    | _ => (w, Return 0%num)
    end.

(** [one]: the constant weight. *)
Definition one : Projection := fun _ _ _ w => (w, Return 1%num).

(** The fields of [AverageOperator]. *)
Record AverageOperator : Type := mkAverageOperator {
  op_project : option Projection;
  op_projectWeight : Projection;
  op_thisArg : JsValue
}.

(** [average(project, projectWeight, thisArg)] applied to a source:
    [averageOperation].  An argument that is not a function is [None];
    [source.lift] keeps the operator for the subscriptions to come. *)
Definition averageOperation (proj projWeight : option Projection)
    (arg : JsValue) : AverageOperator :=
  match proj, projWeight with
  | None, None => mkAverageOperator (Some identity) one arg
  | _, None => mkAverageOperator proj one arg
  | _, Some pw => mkAverageOperator proj pw arg
  end.

(** [AverageOperator.call]: a fresh subscriber for every subscription,
    handed to [source.subscribe]. *)
Definition call (op : AverageOperator) (subscriber : Downstream)
    : AverageSubscriber :=
  new_AverageSubscriber subscriber (op_project op) (op_projectWeight op)
    (op_thisArg op).

(** ** Running a subscription *)

(** What reaches the subscriber: the three signals of the source, and the
    cancellation by the downstream subscriber. *)
Inductive Signal : Type :=
| UpNext (x : JsValue)
| UpError (err : JsValue)
| UpComplete
| Unsubscribe.

Definition deliver (st : AverageSubscriber * World) (s : Signal)
    : AverageSubscriber * World :=
  match s with
  | UpNext x => next x st
  | UpError err => (error err (fst st), snd st)
  | UpComplete => (complete (fst st), snd st)
  | Unsubscribe => (destination_unsubscribe (fst st), snd st)
  end.

Definition run (signals : list Signal) (st : AverageSubscriber * World)
    : AverageSubscriber * World :=
  fold_left deliver signals st.

(** A downstream subscriber that has received nothing yet. *)
Definition fresh : Downstream := mkDownstream false [].

(** A new subscription in a given emit mode.  The constructor builds
    [running = true] only; the other mode is the state [_next] and
    [_complete] test for with [isRunning]. *)
Definition subscription (running : bool) (op : AverageOperator)
    : AverageSubscriber :=
  set_isRunning running (call op fresh).

(** The states of the spec's state machine, on the flags of the model:
    [active] is ACTIVE; COMPLETED, ERRORED and CANCELLED are [terminal]. *)
Definition active (this : AverageSubscriber) : bool :=
  negb (isStopped this) && negb (closed this)
  && negb (stopped (destination this)).

Definition terminal (this : AverageSubscriber) : bool :=
  isStopped this && closed this && stopped (destination this).

(** ** What the projections do on an input *)

(** The two calls at the head of [_next], alone: the (value, weight) pair
    of an item, or what was thrown; the weight is not computed when the
    value projection throws. *)
Definition projections (f : option Projection) (g : Projection)
    (r : Receiver) (x : JsValue) (index : nat) (w : World)
    : World * (JsValue + num * num) :=
  match call_projection f r x index w with
  | (w1, Throw err) => (w1, inl err)
  | (w1, Return v) =>
    match g r x index w1 with
    | (w2, Throw err) => (w2, inl err)
    | (w2, Return wt) => (w2, inr (v, wt))
    end
  end.

(** The projections over a sequence of items, in arrival order and with
    consecutive indices, up to the first exception: the pairs obtained
    before it and the exception, if any. *)
Fixpoint project_all (f : option Projection) (g : Projection)
    (r : Receiver) (items : list JsValue) (index : nat) (w : World)
    : World * list (num * num) * option JsValue :=
  match items with
  | [] => (w, [], None)
  | x :: rest =>
    match projections f g r x index w with
    | (w1, inl err) => (w1, [], Some err)
    | (w1, inr p) =>
      let '(w2, ps, e) := project_all f g r rest (S index) w1 in
      (w2, p :: ps, e)
    end
  end.

(** The projections of an operator over the items of a subscription. *)
Definition projected (op : AverageOperator) (items : list JsValue)
    (w : World) : World * list (num * num) * option JsValue :=
  project_all (op_project op) (op_projectWeight op)
    (receiver (op_thisArg op)) items 0 w.

(** A projection without effects and without exceptions. *)
Definition pure (f : JsValue -> nat -> num) : Projection :=
  fun _ x index w => (w, Return (f x index)).

(** ** The update rule, as the spec writes it *)

(** [sumOfWeights += w;
     runningAverage += (w / sumOfWeights) * (v - runningAverage)]
    on the pair (runningAverage, sumOfWeights). *)
Definition update (acc : num * num) (p : num * num) : num * num :=
  let (avg, sw) := acc in
  let (v, w) := p in
  let sw' := (sw + w)%num in
  ((avg + (w / sw') * (v - avg))%num, sw').

(** The update applied to the pairs in arrival order, from [(0, 0)]. *)
Definition incremental (pairs : list (num * num)) : num * num :=
  fold_left update pairs (0%num, 0%num).

Definition incremental_mean (pairs : list (num * num)) : num :=
  fst (incremental pairs).

(** The average after each pair. *)
Fixpoint averages_from (acc : num * num) (pairs : list (num * num))
    : list num :=
  match pairs with
  | [] => []
  | p :: ps => fst (update acc p) :: averages_from (update acc p) ps
  end.

Definition running_averages (pairs : list (num * num)) : list num :=
  averages_from (0%num, 0%num) pairs.

(** The subscriber after the items behind [pairs] went through [_next]
    without an exception: the update folded over the pairs, one more
    [count] per pair, and in running mode one emission per pair. *)
Definition advanced (pairs : list (num * num)) (this : AverageSubscriber)
    : AverageSubscriber :=
  let start := (value this, sumWeights this) in
  let acc := fold_left update pairs start in
  let emitted :=
    if isRunning this then map Next (averages_from start pairs) else [] in
  set_destination
    (mkDownstream (stopped (destination this))
       (received (destination this) ++ emitted))
    (set_average (count this + length pairs) (fst acc) (snd acc) this).

(** ** Means by direct summation *)

Definition sum (l : list num) : num := fold_left num_add l 0%num.

Fixpoint of_nat (n : nat) : num :=
  match n with
  | O => 0%num
  | S k => (of_nat k + 1)%num
  end.



(** The weighted mean of (value, weight) pairs. *)
Definition weighted_mean (pairs : list (num * num)) : num :=
  (sum (map (fun p => snd p * fst p) pairs) / sum (map snd pairs))%num.

End Average.

Arguments JsValue num : clear implicits.
Arguments Completion num : clear implicits.
Arguments Receiver num : clear implicits.
Arguments Projection num World : clear implicits.
Arguments Notification num : clear implicits.
Arguments Downstream num : clear implicits.
Arguments AverageSubscriber num World : clear implicits.
Arguments AverageOperator num World : clear implicits.
Arguments Signal num : clear implicits.
Arguments identity {num N World} _ _ _ _.
Arguments one {num N World} _ _ _ _.

(** Every partial sum of the weights is nonzero (exact arithmetic). *)
Fixpoint nonzero_sums (sw : Qc) (pairs : list (Qc * Qc)) : bool :=
  match pairs with
  | [] => true
  | (_, w) :: ps =>
    negb (Qeq_bool (sw + w)%Qc 0%Qc) && nonzero_sums (sw + w)%Qc ps
  end.

(** * The callers of the operator *)

Section Callers.

Context {num : Type} {N : Number num}.
Variable World : Type.

(** An argument as a JavaScript caller passes it: a function, or any other
    value ([undefined] when it is left out). *)
Inductive JsArg : Type :=
| Callable (f : Projection num World)
| Plain (v : JsValue num).

(** What [typeof a !== 'function'] lets through. *)
Definition as_function (a : JsArg) : option (Projection num World) :=
  match a with
  | Callable f => Some f
  | Plain _ => None
  end.

(** [average(project, projectWeight, thisArg)], the exported factory,
    applied to a source: the closure [averageOperation] over the three
    arguments. *)
Definition average (project projectWeight : JsArg) (thisArg : JsValue num)
    : AverageOperator num World :=
  averageOperation (as_function project) (as_function projectWeight)
    thisArg.

(** ** The running mean *)



(** ** What the downstream subscriber can tell *)

Definition is_value (n : Notification num) : bool :=
  match n with
  | Next _ => true
  | _ => false
  end.

(** The values among the notifications. *)
Definition values (l : list (Notification num)) : list (Notification num) :=
  filter is_value l.

(** Values, then at most one error or completion, then nothing. *)
Fixpoint well_formed (l : list (Notification num)) : bool :=
  match l with
  | [] => true
  | Next _ :: rest => well_formed rest
  | _ :: rest => match rest with [] => true | _ => false end
  end.

(** The invariant behind the shape of what is received: an active
    subscriber has sent values only, a terminal one a well-formed
    sequence. *)
Definition settled_trace (this : AverageSubscriber num World) : Prop :=
  (active this = true
   /\ forallb is_value (received (destination this)) = true)
  \/ (terminal this = true
      /\ well_formed (received (destination this)) = true).

(** The invariant behind the count, in running mode. *)
Definition counted_trace (this : AverageSubscriber num World) : Prop :=
  isRunning this = true
  /\ count this = length (values (received (destination this)))
  /\ active this || terminal this = true.

(** The invariant of a final-only subscription: nothing is sent while it
    is active, and at most one value is sent in all. *)
Definition final_trace (this : AverageSubscriber num World) : Prop :=
  isRunning this = false
  /\ ((active this = true /\ received (destination this) = [])
      \/ (terminal this = true
          /\ (length (values (received (destination this))) <= 1)%nat)).

(** Two subscribers that differ at most in the emit mode and in what
    their destinations have received. *)
Definition same_average (a b : AverageSubscriber num World) : Prop :=
  stopped (destination a) = stopped (destination b)
  /\ isStopped a = isStopped b
  /\ closed a = closed b
  /\ count a = count b
  /\ value a = value b
  /\ sumWeights a = sumWeights b
  /\ thisArg a = thisArg b
  /\ project a = project b
  /\ projectWeight a = projectWeight b.

(** What [identity] makes of an item: the item when it is a number,
    otherwise the number [0]. *)
Definition numeric (x : JsValue num) : JsValue num :=
  match x with
  | JsNumber _ => x
  | _ => JsNumber 0%num
  end.

(** The (value, weight) pairs of two pure projections: the item at
    position [i] of the subscription is projected with the index [i]. *)
Fixpoint indexed_pairs (fv fw : JsValue num -> nat -> num)
    (items : list (JsValue num)) (start : nat) : list (num * num) :=
  match items with
  | [] => []
  | x :: rest =>
    (fv x start, fw x start) :: indexed_pairs fv fw rest (S start)
  end.

End Callers.

Arguments JsArg num World : clear implicits.
Arguments Plain {num World} v.

(** [Observable.prototype.average], the method patched onto observables
    ([operator/average]). *)
Module Prototype.

(** [average(this: Observable<T>, project, thisArg?)]:
    [higherOrderMap(project, thisArg)(this)], where [higherOrderMap] is
    the factory above, so that the second argument of the method arrives
    as the second argument of the factory. *)
Definition average {num : Type} {N : Number num} {World : Type}
    (project thisArg : JsArg num World) : AverageOperator num World :=
  average project thisArg JsUndefined.

End Prototype.

(** The two zeros of binary64. *)
Definition is_zero (x : float) : bool :=
  match Prim2SF x with
  | S754_zero _ => true
  | _ => false
  end.

(** NaN and the two infinities of binary64. *)
Definition not_finite (x : float) : bool :=
  match Prim2SF x with
  | S754_nan | S754_infinity _ => true
  | _ => false
  end.

(** * Sample subscriptions

    The sources and projections of the test suite
    ([spec/operators/average-spec.ts]), used to run the theorems on
    concrete inputs. *)

Module Samples.

(** The cold source [--a--b--c--|] with [a = 1], [b = 2], [c = 3]. *)
Definition abc : list (JsValue float) :=
  [JsNumber 1%float; JsNumber 2%float; JsNumber 3%float].

(** [a.average()]: no projection, no [thisArg]. *)
Definition plain {World : Type} : AverageOperator float World :=
  averageOperation None None JsUndefined.

(** ['too bad'], what the failing projection of the tests throws. *)
Definition too_bad : JsValue float := JsString "too bad".

(** A value projection that counts its invocations in the captured
    variable, as [invoked++] does, returns the item, and throws
    ['too bad'] from the item of index [bad] on. *)
Definition counting (bad : nat) : Projection float nat :=
  fun _ x index invoked =>
    if bad <=? index then (S invoked, Throw too_bad)
    else match x with
         | JsNumber n => (S invoked, Return n)
         | _ => (S invoked, Return 0%float)
         end.

(** [a.average(counting)]: a value projection only. *)
Definition counted (bad : nat) : AverageOperator float nat :=
  averageOperation (Some (counting bad)) None JsUndefined.

(** A weight projection: the item of index [i] weighs [i + 1]. *)
Definition by_rank {num : Type} {N : Number num} {World : Type}
    : Projection num World :=
  pure (fun _ index => of_nat (S index)).

(** [a.average(identity, by_rank)]: both projections. *)
Definition ranked {num : Type} {N : Number num} {World : Type}
    : AverageOperator num World :=
  averageOperation (Some identity) (Some by_rank) JsUndefined.

(** The items [1, 2, 4] in exact arithmetic. *)
Definition exact_items : list (JsValue Qc) :=
  [JsNumber (Q2Qc 1); JsNumber (Q2Qc 2); JsNumber (Q2Qc 4)].

(** [cold('--x--|', { x: 42 })]. *)
Definition just42 : list (JsValue float) := [JsNumber 42%float].

End Samples.

(** * Sample subscriptions with equal weights *)

Module Equal_weights.





End Equal_weights.

(** * More sample subscriptions *)

Module Degenerate.

(** A weight projection: the item of index [i] weighs [i], so that the
    first item weighs nothing. *)
Definition by_index {num : Type} {N : Number num} {World : Type}
    : Projection num World :=
  pure (fun _ index => of_nat index).

Definition indexed {World : Type} : AverageOperator float World :=
  averageOperation (Some identity) (Some by_index) JsUndefined.

(** A weight projection: [1] for the first item and [-1] for the others,
    so that the first two weights cancel. *)
Definition cancelling {World : Type} : Projection float World :=
  pure (fun _ index => if index =? 0 then 1%float else (-1)%float).

Definition cancelled {World : Type} : AverageOperator float World :=
  averageOperation (Some identity) (Some cancelling) JsUndefined.

(** The items [1, NaN, 3]. *)
Definition with_nan : list (JsValue float) :=
  [JsNumber 1%float; JsNumber nan; JsNumber 3%float].

End Degenerate.

(** * Properties *)

Section Facts.

Context {num : Type} {N : Number num}.
Variable World : Type.

Implicit Types (this : AverageSubscriber num World) (w : World).
Implicit Types (x err : JsValue num) (pairs : list (num * num)).

(** ** The state machine *)

Lemma active_flags this :
  active this = true ->
  isStopped this = false /\ closed this = false
  /\ stopped (destination this) = false.
Proof.
  unfold active. rewrite !andb_true_iff, !negb_true_iff. tauto.
Qed.

Lemma terminal_flags this :
  terminal this = true ->
  isStopped this = true /\ closed this = true
  /\ stopped (destination this) = true.
Proof.
  unfold terminal. rewrite !andb_true_iff. tauto.
Qed.

Ltac flags H :=
  first [ apply active_flags in H | apply terminal_flags in H ];
  destruct H as (? & ? & ?).

Ltac open_subscriber this :=
  destruct this as [[? ?] ? ? ? ? ? ? ? ? ?]; simpl in *; subst.

Lemma run_cons (s : Signal num) signals
    (st : AverageSubscriber num World * World) :
  run (s :: signals) st = run signals (deliver st s).
Proof. reflexivity. Qed.

Lemma run_app (l1 l2 : list (Signal num))
    (st : AverageSubscriber num World * World) :
  run (l1 ++ l2) st = run l2 (run l1 st).
Proof. apply fold_left_app. Qed.

Lemma run_items_cons x (items : list (JsValue num))
    (st : AverageSubscriber num World * World) :
  run (map (@UpNext num) (x :: items)) st
  = run (map (@UpNext num) items) (next x st).
Proof. reflexivity. Qed.

(** No transition leaves a terminal state. *)
Lemma terminal_deliver this w (s : Signal num) :
  terminal this = true -> deliver (this, w) s = (this, w).
Proof.
  intros H. flags H. open_subscriber this.
  destruct s; reflexivity.
Qed.

Lemma terminal_run (signals : list (Signal num)) this w :
  terminal this = true -> run signals (this, w) = (this, w).
Proof.
  intros H. induction signals as [|s signals IH]; [reflexivity|].
  rewrite run_cons, terminal_deliver by exact H. exact IH.
Qed.

Lemma destination_error_terminal err this :
  active this = true -> terminal (destination_error err this) = true.
Proof.
  intros H. flags H. open_subscriber this. reflexivity.
Qed.

Lemma destination_error_received err this :
  active this = true ->
  received (destination (destination_error err this))
  = received (destination this) ++ [Error err].
Proof.
  intros H. flags H. open_subscriber this. reflexivity.
Qed.

Lemma error_terminal err this :
  active this = true -> terminal (error err this) = true.
Proof.
  intros H. flags H. open_subscriber this. reflexivity.
Qed.

Lemma complete_terminal this :
  active this = true -> terminal (complete this) = true.
Proof.
  intros H. flags H. open_subscriber this.
  unfold complete, _complete; simpl.
  match goal with |- context [negb ?b] => destruct b end; reflexivity.
Qed.

Lemma unsubscribe_terminal this :
  active this = true -> terminal (destination_unsubscribe this) = true.
Proof.
  intros H. flags H. open_subscriber this. reflexivity.
Qed.

(** ** One item *)

(** [_next] on an item whose projections return. *)
Lemma next_returns this w x w' v wt :
  active this = true ->
  projections (project this) (projectWeight this) (thisArg this) x
    (count this) w = (w', inr (v, wt)) ->
  next x (this, w) = (advanced [(v, wt)] this, w').
Proof.
  intros Ha Hp. flags Ha. unfold next, _next, projections in *. simpl fst.
  destruct (isStopped this); [discriminate|].
  destruct (call_projection _ _ _ _ _) as [w1 [v1|e1]];
    [|discriminate].
  destruct (projectWeight this _ _ _ _) as [w2 [wt2|e2]];
    [|discriminate].
  injection Hp as -> -> ->.
  open_subscriber this. unfold advanced, destination_next; simpl.
  rewrite Nat.add_1_r.
  match goal with |- context [if ?b then _ else _] => destruct b end;
    simpl; try rewrite app_nil_r; reflexivity.
Qed.

(** [_next] on an item on which a projection throws. *)
Lemma next_throws this w x w' err :
  active this = true ->
  projections (project this) (projectWeight this) (thisArg this) x
    (count this) w = (w', inl err) ->
  next x (this, w) = (destination_error err this, w').
Proof.
  intros Ha Hp. flags Ha. unfold next, _next, projections in *. simpl fst.
  destruct (isStopped this); [discriminate|].
  destruct (call_projection _ _ _ _ _) as [w1 [v1|e1]].
  - destruct (projectWeight this _ _ _ _) as [w2 [wt2|e2]];
      [discriminate|].
    injection Hp as -> ->. reflexivity.
  - injection Hp as -> ->. reflexivity.
Qed.

(** ** Sequences of items *)

Lemma advanced_nil this : advanced [] this = this.
Proof.
  open_subscriber this. unfold advanced; simpl.
  rewrite Nat.add_0_r.
  match goal with |- context [if ?b then _ else _] => destruct b end;
    simpl; rewrite app_nil_r; reflexivity.
Qed.

Lemma advanced_cons p pairs this :
  advanced pairs (advanced [p] this) = advanced (p :: pairs) this.
Proof.
  destruct p as [v wt]. open_subscriber this. unfold advanced; simpl.
  rewrite <- Nat.add_assoc. simpl.
  match goal with |- context [if ?b then _ else _] => destruct b end;
    simpl; rewrite <- app_assoc; reflexivity.
Qed.

Lemma advanced_active pairs this :
  active (advanced pairs this) = active this.
Proof. reflexivity. Qed.

(** Items whose projections all return take the subscriber to
    [advanced]. *)
Lemma run_items_return (items : list (JsValue num)) :
  forall this w w' pairs,
    active this = true ->
    project_all (project this) (projectWeight this) (thisArg this) items
      (count this) w = (w', pairs, None) ->
    run (map (@UpNext num) items) (this, w) = (advanced pairs this, w').
Proof.
  induction items as [|x items IH]; intros this w w' pairs Ha Hp.
  - simpl in Hp. injection Hp as <- <-.
    rewrite advanced_nil. reflexivity.
  - simpl in Hp.
    destruct (projections _ _ _ x _ w) as [w1 [e|[v wt]]] eqn:Hx;
      [discriminate|].
    destruct (project_all _ _ _ items _ w1) as [[w2 ps] e] eqn:Hrest.
    injection Hp as -> <- ->.
    rewrite run_items_cons, (@next_returns this w x w1 v wt Ha Hx).
    rewrite (IH (advanced [(v, wt)] this) w1 w' ps).
    + rewrite advanced_cons. reflexivity.
    + exact Ha.
    + simpl. rewrite Nat.add_1_r. exact Hrest.
Qed.

(** Items up to the first exception: the pairs before it are folded in,
    then the exception goes to [destination.error]; the items behind it
    are not looked at. *)
Lemma run_items_throw (items : list (JsValue num)) :
  forall this w w' pairs err,
    active this = true ->
    project_all (project this) (projectWeight this) (thisArg this) items
      (count this) w = (w', pairs, Some err) ->
    run (map (@UpNext num) items) (this, w)
    = (destination_error err (advanced pairs this), w').
Proof.
  induction items as [|x items IH]; intros this w w' pairs err Ha Hp.
  - discriminate.
  - simpl in Hp. rewrite run_items_cons.
    destruct (projections _ _ _ x _ w) as [w1 [e|[v wt]]] eqn:Hx.
    + rewrite (@next_throws this w x w1 e Ha Hx).
      injection Hp as -> <- ->. rewrite advanced_nil.
      apply terminal_run, destination_error_terminal, Ha.
    + destruct (project_all _ _ _ items _ w1) as [[w2 ps] e] eqn:Hrest.
      injection Hp as -> <- ->.
      rewrite (@next_returns this w x w1 v wt Ha Hx).
      rewrite (IH (advanced [(v, wt)] this) w1 w' ps err); trivial.
      * rewrite advanced_cons. reflexivity.
      * simpl. rewrite Nat.add_1_r. exact Hrest.
Qed.

Lemma averages_from_length (acc : num * num) pairs :
  length (averages_from acc pairs) = length pairs.
Proof.
  revert acc. induction pairs as [|p pairs IH]; intros acc; simpl;
    [reflexivity | now rewrite IH].
Qed.

Lemma project_all_length f g r (items : list (JsValue num)) :
  forall i w w' pairs,
    project_all f g r items i w = (w', pairs, None) ->
    length pairs = length items.
Proof.
  induction items as [|x items IH]; intros i w w' pairs H; simpl in H.
  - now injection H as <- <-.
  - destruct (projections f g r x i w) as [w1 [e|p]]; [discriminate|].
    destruct (project_all f g r items (S i) w1) as [[w2 ps] e] eqn:Hr.
    injection H as <- <- ->. simpl. f_equal. exact (IH _ _ _ _ Hr).
Qed.

(** The first exception of a sequence, located. *)
Lemma project_all_throw f g r (before after : list (JsValue num)) x :
  forall i w w1 w2 pairs err,
    project_all f g r before i w = (w1, pairs, None) ->
    projections f g r x (i + length before) w1 = (w2, inl err) ->
    project_all f g r (before ++ x :: after) i w = (w2, pairs, Some err).
Proof.
  induction before as [|y before IH]; intros i w w1 w2 pairs err Hb Hx;
    simpl in *.
  - injection Hb as <- <-. rewrite Nat.add_0_r in Hx. now rewrite Hx.
  - destruct (projections f g r y i w) as [w3 [e|p]]; [discriminate|].
    destruct (project_all f g r before (S i) w3) as [[w4 ps] e] eqn:Hr.
    injection Hb as <- <- ->.
    rewrite (IH (S i) w3 w4 w2 ps err Hr); [reflexivity|].
    now rewrite Nat.add_succ_r in Hx.
Qed.

(** ** Subscriptions *)

Lemma subscription_active b (op : AverageOperator num World) :
  active (subscription b op) = true.
Proof. reflexivity. Qed.

(** A subscription whose items all project. *)
Lemma subscription_items b (op : AverageOperator num World)
    (items : list (JsValue num)) w0 w1 pairs :
  projected op items w0 = (w1, pairs, None) ->
  run (map (@UpNext num) items) (subscription b op, w0)
  = (advanced pairs (subscription b op), w1).
Proof.
  intros H. apply run_items_return; [reflexivity | exact H].
Qed.

Lemma subscription_received b (op : AverageOperator num World) pairs :
  received (destination (advanced pairs (subscription b op)))
  = if b then map (@Next num) (running_averages pairs) else [].
Proof. destruct b; reflexivity. Qed.

Lemma subscription_average b (op : AverageOperator num World) pairs :
  value (advanced pairs (subscription b op)) = incremental_mean pairs
  /\ sumWeights (advanced pairs (subscription b op))
     = snd (incremental pairs)
  /\ count (advanced pairs (subscription b op)) = length pairs.
Proof. repeat split. Qed.

(** ** Exceptions of the projections *)

(** C10: when a projection throws on an item, [_next] leaves [count],
    [sumWeights] and [value] as they were before the item: the two
    projections run before the first assignment. *)
Theorem projection_error_keeps_state this w x w' err :
  projections (project this) (projectWeight this) (thisArg this) x
    (count this) w = (w', inl err) ->
  count (fst (_next x (this, w))) = count this
  /\ sumWeights (fst (_next x (this, w))) = sumWeights this
  /\ value (fst (_next x (this, w))) = value this.
Proof.
  intros H. unfold _next, projections in *.
  destruct (call_projection _ _ _ _ _) as [w1 [v1|e1]].
  - destruct (projectWeight this _ _ _ _) as [w2 [wt2|e2]];
      [discriminate|].
    open_subscriber this. unfold destination_error, unsubscribe; simpl.
    repeat match goal with
           | |- context [if ?b then _ else _] => destruct b; simpl
           end; repeat split.
  - open_subscriber this. unfold destination_error, unsubscribe; simpl.
    repeat match goal with
           | |- context [if ?b then _ else _] => destruct b; simpl
           end; repeat split.
Qed.

(** C4: when a projection throws [err] on the k-th item of a
    subscription (the k-1 items [before] it project to [pairs]), the
    exception does not leave [_next], which returns as on any item: the
    downstream subscriber receives [err] as an error notification and
    nothing for the failing item; in running mode exactly the k-1 averages
    of the items before precede the error.  Whatever the source sends
    afterwards ([after], [later]) is not processed: no projection runs
    (the projections' state stays as the failing call left it) and the
    subscriber stays in its terminal state with [count] = k-1. *)
Theorem projection_error_is_forwarded b (op : AverageOperator num World)
    (before after : list (JsValue num)) x (later : list (Signal num))
    w0 w1 w2 pairs err :
  projected op before w0 = (w1, pairs, None) ->
  projections (op_project op) (op_projectWeight op)
    (receiver (op_thisArg op)) x (length before) w1 = (w2, inl err) ->
  let st := run (map (@UpNext num) (before ++ x :: after) ++ later)
              (subscription b op, w0) in
  received (destination (fst st))
  = (if b then map (@Next num) (running_averages pairs) else [])
    ++ [Error err]
  /\ length (running_averages pairs) = length before
  /\ snd st = w2
  /\ count (fst st) = length before
  /\ terminal (fst st) = true.
Proof.
  intros Hb Hx st.
  assert (Hall : projected op (before ++ x :: after) w0
                 = (w2, pairs, Some err))
    by (unfold projected; eapply project_all_throw; [exact Hb | exact Hx]).
  assert (Hlen : length pairs = length before)
    by (eapply project_all_length; exact Hb).
  assert (Hst : st = (destination_error err
                        (advanced pairs (subscription b op)), w2)).
  { unfold st. rewrite run_app.
    erewrite run_items_throw; [| reflexivity | exact Hall].
    apply terminal_run, destination_error_terminal. reflexivity. }
  rewrite Hst. simpl fst. simpl snd.
  rewrite destination_error_received by reflexivity.
  rewrite subscription_received.
  unfold running_averages. rewrite averages_from_length.
  repeat split; trivial.
Qed.

(** ** Signals other than items *)

Lemma error_received err this :
  active this = true ->
  received (destination (error err this))
  = received (destination this) ++ [Error err].
Proof.
  intros H. flags H. open_subscriber this. reflexivity.
Qed.

Lemma complete_received this :
  active this = true ->
  received (destination (complete this))
  = received (destination this)
    ++ (if isRunning this then [] else [Next (value this)])
    ++ [Complete].
Proof.
  intros H. flags H. open_subscriber this.
  unfold complete, _complete; simpl.
  match goal with |- context [negb ?b] => destruct b end;
    simpl; try rewrite <- app_assoc; reflexivity.
Qed.

(** The configuration of a subscriber is fixed at construction: no
    signal changes the projections, the receiver or the emit mode. *)
Lemma deliver_configuration (st : AverageSubscriber num World * World)
    (s : Signal num) :
  project (fst (deliver st s)) = project (fst st)
  /\ projectWeight (fst (deliver st s)) = projectWeight (fst st)
  /\ thisArg (fst (deliver st s)) = thisArg (fst st)
  /\ isRunning (fst (deliver st s)) = isRunning (fst st).
Proof.
  destruct st as [this w]. open_subscriber this.
  destruct s; simpl;
    unfold next, _next, error, _error, complete, _complete,
      destination_unsubscribe, destination_error, destination_complete,
      destination_next, unsubscribe; simpl;
    repeat match goal with
           | |- context [if ?b then _ else _] => destruct b; simpl
           | |- context [match ?c with (_, _) => _ end] =>
               destruct c as [? [?|?]]; simpl
           end; repeat split.
Qed.

Lemma run_configuration (signals : list (Signal num)) :
  forall st : AverageSubscriber num World * World,
    project (fst (run signals st)) = project (fst st)
    /\ projectWeight (fst (run signals st)) = projectWeight (fst st)
    /\ thisArg (fst (run signals st)) = thisArg (fst st)
    /\ isRunning (fst (run signals st)) = isRunning (fst st).
Proof.
  induction signals as [|s signals IH]; intros st.
  - repeat split.
  - rewrite run_cons.
    destruct (IH (deliver st s)) as (-> & -> & -> & ->).
    apply deliver_configuration.
Qed.

(** Every signal takes an active or terminal subscriber to an active or
    terminal subscriber. *)
Lemma deliver_settled this w (s : Signal num) :
  active this || terminal this = true ->
  active (fst (deliver (this, w) s))
  || terminal (fst (deliver (this, w) s)) = true.
Proof.
  intros H. apply orb_true_iff in H. destruct H as [Ha|Ht].
  - destruct s; simpl.
    + destruct (projections (project this) (projectWeight this)
                  (thisArg this) x (count this) w)
        as [w1 [e|[v wt]]] eqn:Hx.
      * rewrite (@next_throws this w x w1 e Ha Hx). simpl.
        rewrite (@destination_error_terminal e this Ha). apply orb_true_r.
      * rewrite (@next_returns this w x w1 v wt Ha Hx). simpl.
        rewrite advanced_active, Ha. reflexivity.
    + rewrite (@error_terminal err this Ha). apply orb_true_r.
    + rewrite (@complete_terminal this Ha). apply orb_true_r.
    + rewrite (@unsubscribe_terminal this Ha). apply orb_true_r.
  - rewrite (@terminal_deliver this w s Ht). simpl. rewrite Ht.
    apply orb_true_r.
Qed.

Lemma run_settled (signals : list (Signal num)) :
  forall this w,
    active this || terminal this = true ->
    active (fst (run signals (this, w)))
    || terminal (fst (run signals (this, w))) = true.
Proof.
  induction signals as [|s signals IH]; intros this w H; [exact H|].
  rewrite run_cons.
  destruct (deliver (this, w) s) as [this' w'] eqn:Hd.
  apply IH. change this' with (fst (this', w')). rewrite <- Hd.
  now apply deliver_settled.
Qed.

(** A subscription whose items all project, then completes: the
    completion is handled right after the items, and whatever comes later
    finds a terminal subscriber. *)
Lemma run_to_completion b (op : AverageOperator num World)
    (items : list (JsValue num)) (later : list (Signal num)) w0 w1 pairs :
  projected op items w0 = (w1, pairs, None) ->
  run (map (@UpNext num) items ++ UpComplete :: later)
    (subscription b op, w0)
  = (complete (advanced pairs (subscription b op)), w1).
Proof.
  intros H.
  rewrite run_app, (subscription_items b op items w0 H), run_cons.
  apply terminal_run, complete_terminal. reflexivity.
Qed.

(** The same with an error of the source. *)
Lemma run_to_error b (op : AverageOperator num World)
    (items : list (JsValue num)) err (later : list (Signal num))
    w0 w1 pairs :
  projected op items w0 = (w1, pairs, None) ->
  run (map (@UpNext num) items ++ UpError err :: later)
    (subscription b op, w0)
  = (error err (advanced pairs (subscription b op)), w1).
Proof.
  intros H.
  rewrite run_app, (subscription_items b op items w0 H), run_cons.
  apply terminal_run, error_terminal. reflexivity.
Qed.

(** What a running subscription has sent downstream once the source has
    completed. *)
Lemma completed_received (op : AverageOperator num World)
    (items : list (JsValue num)) (later : list (Signal num)) w0 w1 pairs :
  projected op items w0 = (w1, pairs, None) ->
  received
    (destination
       (fst (run (map (@UpNext num) items ++ UpComplete :: later)
               (call op fresh, w0))))
  = map (@Next num) (running_averages pairs) ++ [Complete].
Proof.
  intros H. change (call op fresh) with (subscription true op).
  rewrite (run_to_completion true op items later w0 H). simpl fst.
  rewrite complete_received by reflexivity. reflexivity.
Qed.

(** ** Defaults *)

(** C3: the projections are resolved when the operator is applied to a
    source, in three ways: without projections, [identity] (the item when
    it is a number, else [0]) and the constant weight [1]; with a value
    projection only, that projection and the constant weight [1]; with
    both, both as given.  The resolution is not repeated per item: the
    subscriber of a subscription holds the resolved projections and no
    signal changes them. *)
Theorem defaults_resolved_once (p pw : Projection num World)
    (arg : JsValue num) :
  averageOperation (World := World) None None arg
  = mkAverageOperator (Some identity) one arg
  /\ averageOperation (Some p) None arg = mkAverageOperator (Some p) one arg
  /\ averageOperation (Some p) (Some pw) arg
     = mkAverageOperator (Some p) pw arg
  /\ (forall r n i w, identity r (JsNumber n) i w = (w, Return n))
  /\ (forall r i w b s k,
        identity r JsUndefined i w = (w, Return 0%num)
        /\ identity r JsNull i w = (w, Return 0%num)
        /\ identity r (JsBoolean b) i w = (w, Return 0%num)
        /\ identity r (JsString s) i w = (w, Return 0%num)
        /\ identity r (JsObject k) i w = (w, Return 0%num)
        /\ identity r (JsTypeError s) i w = (w, Return 0%num))
  /\ (forall r (x : JsValue num) i w, one r x i w = (w, Return 1%num))
  /\ (forall (op : AverageOperator num World) dest signals w,
        project (fst (run signals (call op dest, w))) = op_project op
        /\ projectWeight (fst (run signals (call op dest, w)))
           = op_projectWeight op).
Proof.
  repeat split;
    destruct (run_configuration signals (call op dest, w))
      as (Hp & Hw & _ & _); assumption.
Qed.

(** ** Emit mode *)

(** C5, as the code has it: every subscriber the operator constructs is
    in running mode, whatever the arguments of [average] and whatever the
    downstream subscriber, and no signal changes the mode. *)
Theorem constructed_running (proj projWeight : option (Projection num World))
    (arg : JsValue num) (dest : Downstream num)
    (signals : list (Signal num)) w :
  isRunning (call (averageOperation proj projWeight arg) dest) = true
  /\ isRunning
       (fst (run signals (call (averageOperation proj projWeight arg) dest,
                          w))) = true.
Proof.
  split; [reflexivity|].
  destruct (run_configuration signals
              (call (averageOperation proj projWeight arg) dest, w))
    as (_ & _ & _ & ->).
  reflexivity.
Qed.

(** ** Completion *)

(** C8: in running mode, the completion of the source adds no value: the
    downstream subscriber has received the running averages of the items,
    then the completion, once.  Signals after the completion ([later]) are
    not processed: no projection runs and nothing more is received. *)
Theorem running_completion (op : AverageOperator num World)
    (items : list (JsValue num)) (later : list (Signal num)) w0 w1 pairs :
  projected op items w0 = (w1, pairs, None) ->
  let st := run (map (@UpNext num) items ++ UpComplete :: later)
              (call op fresh, w0) in
  received (destination (fst st))
  = map (@Next num) (running_averages pairs) ++ [Complete]
  /\ snd st = w1
  /\ count (fst st) = length items
  /\ terminal (fst st) = true.
Proof.
  intros H st.
  assert (Hst : st = (complete (advanced pairs (subscription true op)), w1))
    by (apply (run_to_completion true op items later w0 H)).
  split; [exact (completed_received op items later w0 H)|].
  rewrite Hst. simpl fst. simpl snd.
  assert (Hlen : length pairs = length items)
    by (eapply project_all_length; exact H).
  split; [reflexivity|]. split.
  - rewrite <- Hlen. reflexivity.
  - apply complete_terminal. reflexivity.
Qed.


(** ** Errors of the source *)

(** C7: an error of the source reaches the downstream subscriber as it
    is, after the values emitted for the items received before it (none
    in final-only mode) and with no value of its own.  Nothing follows
    it, neither a completion nor a value, whatever the source sends
    afterwards, and no projection runs. *)
Theorem upstream_error_is_forwarded b (op : AverageOperator num World)
    (items : list (JsValue num)) err (later : list (Signal num))
    w0 w1 pairs :
  projected op items w0 = (w1, pairs, None) ->
  let st := run (map (@UpNext num) items ++ UpError err :: later)
              (subscription b op, w0) in
  received (destination (fst st))
  = (if b then map (@Next num) (running_averages pairs) else [])
    ++ [Error err]
  /\ snd st = w1
  /\ terminal (fst st) = true.
Proof.
  intros H st.
  assert (Hst : st = (error err (advanced pairs (subscription b op)), w1))
    by (apply (run_to_error b op items err later w0 H)).
  rewrite Hst. simpl fst. simpl snd.
  rewrite error_received by reflexivity.
  rewrite subscription_received.
  split; [reflexivity|]. split; [reflexivity|].
  apply error_terminal. reflexivity.
Qed.

(** ** Cancellation *)

(** C9: once the downstream subscriber has unsubscribed, at any point of
    a subscription ([before] is any sequence of signals), the subscriber
    is closed, which cancels the subscription to the source, and no later
    signal has any effect: the projections' state does not change, so no
    projection is invoked, and the downstream subscriber receives nothing
    more. *)
Theorem unsubscribed_is_silent b (op : AverageOperator num World)
    (before after : list (Signal num)) w0 :
  let st := run (before ++ [Unsubscribe]) (subscription b op, w0) in
  closed (fst st) = true
  /\ isStopped (fst st) = true
  /\ run after st = st
  /\ snd (run after st) = snd st
  /\ received (destination (fst (run after st)))
     = received (destination (fst st)).
Proof.
  intros st.
  assert (Ht : terminal (fst st) = true).
  { unfold st. rewrite run_app.
    destruct (run before (subscription b op, w0)) as [this w] eqn:Hb.
    assert (Hs : active this || terminal this = true).
    { change this with (fst (this, w)). rewrite <- Hb.
      apply run_settled. reflexivity. }
    rewrite run_cons. simpl.
    apply orb_true_iff in Hs. destruct Hs as [Ha|Hs].
    - now apply unsubscribe_terminal.
    - flags Hs. open_subscriber this. reflexivity. }
  assert (Hrun : run after st = st).
  { destruct st as [this w]. now apply terminal_run. }
  rewrite Hrun. flags Ht. repeat split; assumption.
Qed.

(** ** Prefixes *)

(** The n-th running average is the update folded over the first n
    pairs. *)
Lemma averages_from_nth pairs :
  forall (acc : num * num) n,
    nth_error (averages_from acc pairs) n
    = if n <? length pairs
      then Some (fst (fold_left update (firstn (S n) pairs) acc))
      else None.
Proof.
  induction pairs as [|p pairs IH]; intros acc n.
  - destruct n; reflexivity.
  - destruct n as [|n].
    + reflexivity.
    + cbn [averages_from nth_error length]. rewrite IH.
      change (S n <? S (length pairs)) with (n <? length pairs).
      reflexivity.
Qed.

(** The projections of a prefix of the items are a prefix of the
    projections. *)
Lemma project_all_firstn f g r (items : list (JsValue num)) :
  forall n i w w' pairs,
    project_all f g r items i w = (w', pairs, None) ->
    exists w'',
      project_all f g r (firstn n items) i w
      = (w'', firstn n pairs, None).
Proof.
  induction items as [|x items IH]; intros n i w w' pairs H.
  - simpl in H. injection H as <- <-.
    exists w. now rewrite !firstn_nil.
  - destruct n as [|n]; [exists w; reflexivity|].
    simpl in H. cbn [firstn project_all].
    destruct (projections f g r x i w) as [w1 [e|q]]; [discriminate|].
    destruct (project_all f g r items (S i) w1) as [[w2 ps] e] eqn:Hr.
    injection H as <- <- ->.
    destruct (IH n (S i) w1 w2 ps Hr) as [w'' Hn].
    exists w''. rewrite Hn. reflexivity.
Qed.


End Facts.

(** ** Exact arithmetic *)

Section Exact.

Local Open Scope Qc_scope.

Lemma sum_from (l : list Qc) (a : Qc) :
  fold_left Qcplus l a = a + fold_left Qcplus l 0.
Proof.
  revert a. induction l as [|x l IH]; intros a; simpl.
  - ring.
  - rewrite (IH (a + x)), (IH (0 + x)). ring.
Qed.

Lemma sum_cons (x : Qc) (l : list Qc) : sum (x :: l) = x + sum l.
Proof.
  unfold sum. simpl. rewrite sum_from. f_equal. ring.
Qed.

Lemma nonzero_sums_head sw v w ps :
  nonzero_sums sw ((v, w) :: ps) = true ->
  sw + w <> 0 /\ nonzero_sums (sw + w) ps = true.
Proof.
  cbn [nonzero_sums]. rewrite andb_true_iff, negb_true_iff.
  intros [Hz Hr]. split; [|exact Hr].
  intros E. rewrite E in Hz. discriminate.
Qed.

(** The invariant of the update in exact arithmetic: the running average
    times the sum of the weights is the weighted sum of the values. *)
Lemma update_invariant (pairs : list (Qc * Qc)) :
  forall avg sw : Qc,
    nonzero_sums sw pairs = true ->
    snd (fold_left update pairs (avg, sw)) = sw + sum (map snd pairs)
    /\ fst (fold_left update pairs (avg, sw))
       * snd (fold_left update pairs (avg, sw))
       = avg * sw + sum (map (fun p => snd p * fst p) pairs).
Proof.
  induction pairs as [|[v w] ps IH]; intros avg sw H.
  - simpl. unfold sum. simpl. split; ring.
  - apply nonzero_sums_head in H. destruct H as [Hz Hr].
    simpl map. rewrite !sum_cons. simpl fold_left.
    destruct (IH (avg + w / (sw + w) * (v - avg)) (sw + w) Hr)
      as [Hs Hp].
    split.
    + rewrite Hs. ring.
    + rewrite Hp. simpl. field. exact Hz.
Qed.

Lemma nonzero_sums_last (pairs : list (Qc * Qc)) :
  forall sw : Qc,
    pairs <> [] -> nonzero_sums sw pairs = true ->
    sw + sum (map snd pairs) <> 0.
Proof.
  induction pairs as [|[v w] ps IH]; intros sw Hne H; [congruence|].
  apply nonzero_sums_head in H. destruct H as [Hz Hr].
  simpl map. rewrite sum_cons.
  destruct ps as [|p ps'].
  - unfold sum. simpl. intros E. apply Hz. rewrite <- E. ring.
  - replace (sw + (w + sum (map snd (p :: ps'))))
      with (sw + w + sum (map snd (p :: ps'))) by ring.
    apply IH; [discriminate | exact Hr].
Qed.

(** In exact arithmetic the incremental update computes the weighted
    mean. *)
Lemma incremental_is_weighted_mean (pairs : list (Qc * Qc)) :
  pairs <> [] -> nonzero_sums 0 pairs = true ->
  incremental_mean pairs = weighted_mean pairs.
Proof.
  intros Hne H. unfold incremental_mean, incremental, weighted_mean.
  destruct (update_invariant pairs 0 0 H) as [Hs Hp].
  pose proof (nonzero_sums_last Hne H) as Hz.
  simpl in *.
  set (r := fold_left update pairs (0, 0)) in *.
  assert (Hsum : sum (map snd pairs) = snd r) by (rewrite Hs; ring).
  rewrite Hsum in *.
  assert (Hn : snd r <> 0) by (intros E; apply Hz; rewrite E; ring).
  replace (sum (map (fun p => snd p * fst p) pairs)) with (fst r * snd r)
    by (rewrite Hp; ring).
  field. exact Hn.
Qed.

Lemma nonzero_sums_firstn (pairs : list (Qc * Qc)) :
  forall sw n,
    nonzero_sums sw pairs = true ->
    nonzero_sums sw (firstn n pairs) = true.
Proof.
  induction pairs as [|[v w] ps IH]; intros sw n H.
  - now rewrite firstn_nil.
  - destruct n as [|n]; [reflexivity|].
    cbn [firstn nonzero_sums] in *.
    apply andb_true_iff in H. destruct H as [-> Hr].
    now rewrite (IH _ n Hr).
Qed.

(** *** Equal weights *)









End Exact.

(** * The running average *)

(** C1: after the first [n] items of a subscription, the running average
    of the subscriber is the incremental update
    [sumWeights += w; value += (w / sumWeights) * (v - value)] applied in
    arrival order to the first [n] (value, weight) pairs, and the [n]-th
    value the downstream subscriber receives is that running average.
    This holds for every arithmetic, binary64 included.  In exact
    arithmetic, when no partial sum of the weights is zero, this running
    average is the weighted mean of the first [n] pairs, the weighted sum
    of the values over the sum of the weights. *)
Theorem running_average_is_weighted_mean :
  (forall (num : Type) (N : Number num) (World : Type)
     (op : AverageOperator num World) (items : list (JsValue num))
     (w0 w1 : World) (pairs : list (num * num)) (n : nat),
      projected op items w0 = (w1, pairs, None) ->
      (1 <= n <= length items)%nat ->
      let after_n :=
        fst (run (map (@UpNext num) (firstn n items)) (call op fresh, w0)) in
      let finished :=
        fst (run (map (@UpNext num) items) (call op fresh, w0)) in
      count after_n = n
      /\ value after_n = incremental_mean (firstn n pairs)
      /\ nth_error (received (destination finished)) (n - 1)%nat
         = Some (Next (value after_n)))
  /\ (forall (World : Type) (op : AverageOperator Qc World)
        (items : list (JsValue Qc)) (w0 w1 : World)
        (pairs : list (Qc * Qc)) (n : nat),
        projected op items w0 = (w1, pairs, None) ->
        nonzero_sums 0%Qc pairs = true ->
        (1 <= n <= length items)%nat ->
        value
          (fst (run (map (@UpNext Qc) (firstn n items)) (call op fresh, w0)))
        = weighted_mean (firstn n pairs)).
Proof.
  assert (A : forall (num : Type) (N : Number num) (World : Type)
     (op : AverageOperator num World) (items : list (JsValue num))
     (w0 w1 : World) (pairs : list (num * num)) (n : nat),
      projected op items w0 = (w1, pairs, None) ->
      (1 <= n <= length items)%nat ->
      let after_n :=
        fst (run (map (@UpNext num) (firstn n items)) (call op fresh, w0)) in
      let finished :=
        fst (run (map (@UpNext num) items) (call op fresh, w0)) in
      count after_n = n
      /\ value after_n = incremental_mean (firstn n pairs)
      /\ nth_error (received (destination finished)) (n - 1)%nat
         = Some (Next (value after_n))).
  { intros num N World op items w0 w1 pairs n H Hn after_n finished.
    assert (Hlen : length pairs = length items)
      by (eapply project_all_length; exact H).
    destruct (project_all_firstn _ _ _ items n _ _ H) as [w' Hpre].
    change (call op fresh) with (subscription true op) in *.
    unfold after_n, finished.
    rewrite (subscription_items true op (firstn n items) w0 Hpre).
    rewrite (subscription_items true op items w0 H).
    simpl fst.
    destruct (subscription_average true op (firstn n pairs))
      as (-> & _ & ->).
    rewrite subscription_received, nth_error_map.
    unfold running_averages. rewrite averages_from_nth.
    rewrite length_firstn, Hlen.
    replace (n - 1 <? length items) with true
      by (symmetry; apply Nat.ltb_lt; lia).
    replace (S (n - 1)) with n by lia.
    repeat split. lia. }
  split; [exact A|].
  intros World op items w0 w1 pairs n H Hz Hn.
  destruct (A Qc exact World op items w0 w1 pairs n H Hn) as (_ & -> & _).
  assert (Hlen : length pairs = length items)
    by (eapply project_all_length; exact H).
  apply incremental_is_weighted_mean.
  - destruct pairs as [|p ps]; [simpl in Hlen; lia|].
    destruct n; [lia | discriminate].
  - now apply nonzero_sums_firstn.
Qed.



(** * The test suite on the model *)

Module Scenarios.

Import Samples.

(** 'should propagate errors from average function': the projection
    throws on the only item; the error is received, no value, and the
    subscription to the source is closed at once. *)
Example errors_from_average_function :
  let st := run (map (@UpNext float) just42 ++ [UpComplete])
              (call (counted 0) fresh, 0%nat) in
  received (destination (fst st)) = [Error too_bad]
  /\ closed (fst st) = true
  /\ snd st = 1%nat.
Proof. repeat split. Qed.

(** 'should propagate errors from observable that emits only errors'. *)
Example source_with_only_an_error :
  received
    (destination
       (fst (run [UpError too_bad] (call plain fresh, tt))))
  = [Error too_bad].
Proof. reflexivity. Qed.

(** 'should not average an empty observable': the completion alone, and
    the projection is never invoked. *)
Example empty_source :
  let st := run [UpComplete] (call (counted 9) fresh, 0%nat) in
  received (destination (fst st)) = [Complete] /\ snd st = 0%nat.
Proof. repeat split. Qed.

(** 'should allow unsubscribing explicitly and early': the subscriber
    unsubscribes after the second item; the third item and the completion
    find a closed subscription, and the projection has run twice. *)
Example early_unsubscribe :
  let st :=
    run [UpNext (JsNumber 1%float); UpNext (JsNumber 2%float); Unsubscribe;
         UpNext (JsNumber 3%float); UpComplete]
      (call (counted 9) fresh, 0%nat) in
  received (destination (fst st)) = [Next 1%float; Next 1.5%float]
  /\ closed (fst st) = true
  /\ snd st = 2%nat.
Proof. repeat split. Qed.

(** A weight projection without a value projection: [averageOperation]
    passes the missing [project] on, the first item fails on calling it
    and the failure goes downstream as an error. *)
Example weight_without_value :
  received
    (destination
       (fst (run (map (@UpNext float) abc)
               (call (averageOperation (World := unit) None (Some by_rank)
                        JsUndefined) fresh, tt))))
  = [Error (JsTypeError "this.project.call is not a function")].
Proof. reflexivity. Qed.

End Scenarios.

(** * The theorems on the sample subscriptions *)

Module Runs.

Import Samples.

(** C1 on [1, 2, 3] weighted by rank, in binary64 and after two items
    (the second average is the binary64 number printed
    [1.6666666666666665]), and on [1, 2, 4] weighted by rank in exact
    arithmetic. *)
Lemma running_average_is_weighted_mean_witness :
  (projected (World := unit) ranked abc tt
   = (tt, [(1, 1); (2, 2); (3, 3)]%float, None)
   /\ (1 <= 2 <= length abc)%nat
   /\ nth_error
        (received
           (destination
              (fst (run (map (@UpNext float) abc)
                      (call (World := unit) ranked fresh, tt)))))
        (2 - 1)
      = Some (Next 0x1.aaaaaaaaaaaaap+0%float))
  /\ (nonzero_sums 0%Qc
        [(Q2Qc 1, of_nat 1); (Q2Qc 2, of_nat 2); (Q2Qc 4, of_nat 3)] = true
      /\ value
           (fst (run (map (@UpNext Qc) (firstn 3 exact_items))
                   (call (World := unit) ranked fresh, tt)))
         = weighted_mean
             (firstn 3
                [(Q2Qc 1, of_nat 1); (Q2Qc 2, of_nat 2);
                 (Q2Qc 4, of_nat 3)])).
Proof.
  split.
  - split; [reflexivity|]. split; [simpl; lia|].
    exact (proj2 (proj2
             (proj1 running_average_is_weighted_mean
                float binary64 unit ranked abc tt tt
                [(1, 1); (2, 2); (3, 3)]%float 2%nat eq_refl
                (conj (le_S 1 1 (le_n 1)) (le_S 2 2 (le_n 2)))))).
  - split; [reflexivity|].
    exact (proj2 running_average_is_weighted_mean
             unit ranked exact_items tt tt
             [(Q2Qc 1, of_nat 1); (Q2Qc 2, of_nat 2); (Q2Qc 4, of_nat 3)]
             3%nat eq_refl eq_refl
             (conj (le_S 1 2 (le_S 1 1 (le_n 1))) (le_n 3))).
Defined.


(** C4 on the items [1, 2, 3, 4] with a projection that throws on the
    third: two averages, then the error; the projection ran three times
    and the fourth item and the completion were not processed. *)
Lemma projection_error_is_forwarded_witness :
  projected (counted 2) [JsNumber 1%float; JsNumber 2%float] 0%nat
  = (2%nat, [(1, 1); (2, 1)]%float, None)
  /\ projections (op_project (counted 2)) (op_projectWeight (counted 2))
       (receiver (op_thisArg (counted 2))) (JsNumber 3%float) 2 2%nat
     = (3%nat, inl too_bad)
  /\ received
       (destination
          (fst (run (map (@UpNext float) (abc ++ [JsNumber 4%float])
                     ++ [UpComplete])
                  (subscription true (counted 2), 0%nat))))
     = [Next 1%float; Next 1.5%float; Error too_bad]
  /\ snd (run (map (@UpNext float) (abc ++ [JsNumber 4%float])
               ++ [UpComplete])
            (subscription true (counted 2), 0%nat)) = 3%nat.
Proof.
  pose proof (@projection_error_is_forwarded float binary64 nat true
                (counted 2) [JsNumber 1%float; JsNumber 2%float]
                [JsNumber 4%float] (JsNumber 3%float) [UpComplete]
                0%nat 2%nat 3%nat [(1, 1); (2, 1)]%float too_bad
                eq_refl eq_refl) as (Hr & _ & Hw & _).
  split; [reflexivity|]. split; [reflexivity|].
  split; [exact Hr | exact Hw].
Defined.


(** C7 on scenario 4 of the spec: [1, 2], then an error. *)
Lemma upstream_error_is_forwarded_witness :
  projected (World := unit) plain
    [JsNumber 1%float; JsNumber 2%float] tt
  = (tt, [(1, 1); (2, 1)]%float, None)
  /\ received
       (destination
          (fst (run (map (@UpNext float)
                       [JsNumber 1%float; JsNumber 2%float]
                     ++ UpError too_bad :: [UpComplete])
                  (subscription true plain, tt))))
     = [Next 1%float; Next 1.5%float; Error too_bad].
Proof.
  split; [reflexivity|].
  exact (proj1 (@upstream_error_is_forwarded float binary64 unit true plain
                  [JsNumber 1%float; JsNumber 2%float] too_bad
                  [UpComplete] tt tt [(1, 1); (2, 1)]%float eq_refl)).
Defined.

(** C8 on scenario 2 of the spec: [42], then the completion. *)
Lemma running_completion_witness :
  projected (World := unit) plain [JsNumber 42%float] tt
  = (tt, [(42, 1)]%float, None)
  /\ received
       (destination
          (fst (run (map (@UpNext float) [JsNumber 42%float]
                     ++ UpComplete :: [UpNext (JsNumber 1%float)])
                  (call plain fresh, tt))))
     = [Next 42%float; Complete].
Proof.
  split; [reflexivity|].
  exact (proj1 (@running_completion float binary64 unit plain
                  [JsNumber 42%float] [UpNext (JsNumber 1%float)] tt tt
                  [(42, 1)]%float eq_refl)).
Defined.

(** C10 on scenario 5 of the spec, after two items: the third makes the
    projection throw, and the subscriber keeps [count = 2],
    [sumWeights = 2] and [value = 1.5]. *)
Lemma projection_error_keeps_state_witness :
  let this :=
    fst (run (map (@UpNext float) [JsNumber 1%float; JsNumber 2%float])
           (call (counted 2) fresh, 0%nat)) in
  projections (project this) (projectWeight this) (thisArg this)
    (JsNumber 3%float) (count this) 2%nat = (3%nat, inl too_bad)
  /\ count (fst (_next (JsNumber 3%float) (this, 2%nat))) = 2%nat
  /\ sumWeights (fst (_next (JsNumber 3%float) (this, 2%nat))) = 2%float
  /\ value (fst (_next (JsNumber 3%float) (this, 2%nat))) = 1.5%float.
Proof.
  intros this. split; [reflexivity|].
  exact (@projection_error_keeps_state float binary64 nat this 2%nat
           (JsNumber 3%float) 3%nat too_bad eq_refl).
Defined.

(** * Three behaviours of the code to note *)



(** C5: no argument of [average] and no downstream subscriber makes the
    constructed subscriber a final-only one. *)
Lemma no_final_only_construction :
  ~ exists (proj projWeight : option (Projection float unit))
      (arg : JsValue float) (dest : Downstream float),
      isRunning (call (averageOperation proj projWeight arg) dest) = false.
Proof.
  intros (proj & projWeight & arg & dest & H). discriminate H.
Qed.


End Runs.

(** * Further properties of the operator and of its callers *)

Section Callers_facts.

Context {num : Type} {N : Number num}.
Variable World : Type.

Implicit Types (this : AverageSubscriber num World) (w : World).
Implicit Types (x err : JsValue num) (pairs : list (num * num)).

Ltac flags H :=
  first [ apply active_flags in H | apply terminal_flags in H ];
  destruct H as (? & ? & ?).

Ltac open_subscriber this :=
  destruct this as [[? ?] ? ? ? ? ? ? ? ? ?]; simpl in *; subst.

(** ** The prototype method *)

(** X1: the method [Observable.prototype.average(project, thisArg)] hands
    its second argument to the factory as the weight projection.  A
    second argument that is not a function changes nothing (the operator
    is the one obtained without it, and so is every run); a function
    given there becomes the weight projection; and in no case does the
    argument become the receiver of the projections, which is always the
    subscriber. *)
Theorem prototype_second_argument (project : JsArg num World)
    (f : Projection num World) (v : JsValue num) (dest : Downstream num)
    (signals : list (Signal num)) w :
  run signals (call (Prototype.average project (Plain v)) dest, w)
  = run signals (call (Prototype.average project (Plain JsUndefined)) dest, w)
  /\ op_projectWeight (Prototype.average project (Callable f)) = f
  /\ (forall a : JsArg num World,
        thisArg (fst (run signals
                        (call (Prototype.average project a) dest, w)))
        = TheSubscriber).
Proof.
  split; [|split].
  - destruct project; reflexivity.
  - destruct project; reflexivity.
  - intros a.
    destruct (run_configuration signals
                (call (Prototype.average project a) dest, w))
      as (_ & _ & -> & _).
    destruct project, a; reflexivity.
Qed.

(** ** A weight projection without a value projection *)

(** X2: when the factory is given a weight projection and, for the value
    projection, something that is not a function, the subscription fails
    on its first item: the downstream subscriber receives a [TypeError]
    and no value, the weight projection is never invoked (the state it
    captures is untouched), and later signals are ignored. *)
Theorem weight_without_value_fails (v : JsValue num)
    (pw : Projection num World) (arg : JsValue num) b x
    (rest : list (JsValue num)) (later : list (Signal num)) w :
  let st := run (map (@UpNext num) (x :: rest) ++ later)
              (subscription b (average (Plain v) (Callable pw) arg), w) in
  (exists msg, received (destination (fst st)) = [Error (JsTypeError msg)])
  /\ snd st = w
  /\ count (fst st) = 0%nat
  /\ terminal (fst st) = true.
Proof.
  intros st.
  set (op := average (Plain v) (Callable pw) arg) in *.
  set (err := JsTypeError "this.project.call is not a function"%string
              : JsValue num).
  assert (Hst : st = (destination_error err (subscription b op), w)).
  { unfold st. rewrite run_app.
    rewrite (@run_items_throw num N World (x :: rest) (subscription b op)
               w w [] err); [| reflexivity | reflexivity].
    rewrite advanced_nil.
    apply terminal_run, destination_error_terminal. reflexivity. }
  rewrite Hst. simpl fst. simpl snd.
  split; [exists "this.project.call is not a function"%string|];
    repeat split.
Qed.

(** ** The binding context *)

(** X3: a [thisArg] that is falsy ([undefined], [null], [false], [0],
    [NaN], the empty string) is replaced by the subscriber in
    [thisArg || this]: the subscription is the one obtained without
    [thisArg], on every sequence of signals. *)
Theorem falsy_thisArg_is_dropped (project projectWeight : JsArg num World)
    (arg : JsValue num) (dest : Downstream num)
    (signals : list (Signal num)) w :
  truthy arg = false ->
  run signals (call (average project projectWeight arg) dest, w)
  = run signals (call (average project projectWeight JsUndefined) dest, w).
Proof.
  intros H. f_equal. f_equal.
  unfold call, new_AverageSubscriber, receiver. simpl.
  assert (E : op_thisArg (average project projectWeight arg) = arg)
    by (destruct project, projectWeight; reflexivity).
  assert (E' : op_thisArg (average project projectWeight JsUndefined)
               = JsUndefined)
    by (destruct project, projectWeight; reflexivity).
  rewrite E, E', H. simpl.
  destruct project, projectWeight; reflexivity.
Qed.

(** ** Items that are not numbers *)

Lemma next_numeric x (st : AverageSubscriber num World * World) :
  project (fst st) = Some identity ->
  projectWeight (fst st) = one ->
  next x st = next (numeric x) st.
Proof.
  destruct st as [this w]. intros Hp Hw.
  unfold next, _next. simpl in *. rewrite Hp, Hw.
  destruct x; reflexivity.
Qed.

(** X4: under the default projections an item that is not a number is
    not skipped: it is averaged as the number [0] with weight [1].
    Replacing every such item by [0] gives the same subscription. *)
Theorem non_numbers_count_as_zero (u v arg : JsValue num)
    (dest : Downstream num) (items : list (JsValue num))
    (later : list (Signal num)) w :
  run (map (@UpNext num) items ++ later)
    (call (average (Plain u) (Plain v) arg) dest, w)
  = run (map (@UpNext num) (map numeric items) ++ later)
      (call (average (Plain u) (Plain v) arg) dest, w).
Proof.
  rewrite !run_app. f_equal.
  set (st := (call (average (Plain u) (Plain v) arg) dest, w)).
  assert (Hp : project (fst st) = Some identity) by reflexivity.
  assert (Hw : projectWeight (fst st) = one) by reflexivity.
  clearbody st. revert st Hp Hw.
  induction items as [|x items IH]; intros st Hp Hw; [reflexivity|].
  cbn [map]. rewrite !run_cons. cbn [deliver].
  rewrite <- (next_numeric x st Hp Hw).
  destruct (deliver_configuration st (UpNext x)) as (Hp' & Hw' & _ & _).
  cbn [deliver] in Hp', Hw'.
  apply IH; [now rewrite Hp' | now rewrite Hw'].
Qed.

(** ** The index of an item *)

Lemma projected_pure (fv fw : JsValue num -> nat -> num)
    (r : Receiver num) (items : list (JsValue num)) :
  forall i w,
    project_all (Some (pure (World := World) fv)) (pure fw) r items i w
    = (w, indexed_pairs fv fw items i, None).
Proof.
  induction items as [|x items IH]; intros i w; [reflexivity|].
  cbn [project_all indexed_pairs].
  unfold projections, call_projection, pure at 1 2.
  now rewrite IH.
Qed.

(** X5: the index the projections receive is the position of the item
    in the subscription, from [0]: with two projections that neither
    throw nor have effects, the values received are the running averages
    of the pairs [(fv x_i i, fw x_i i)], whatever [thisArg] is, and
    [count] ends as the number of items. *)
Theorem items_are_indexed_from_zero (fv fw : JsValue num -> nat -> num)
    (arg : JsValue num) (items : list (JsValue num)) w :
  let st := run (map (@UpNext num) items)
              (call (average (Callable (pure fv)) (Callable (pure fw)) arg)
                 fresh, w) in
  received (destination (fst st))
  = map (@Next num) (running_averages (indexed_pairs fv fw items 0))
  /\ count (fst st) = length items
  /\ snd st = w.
Proof.
  intros st.
  set (op := average (Callable (pure fv)) (Callable (pure fw)) arg) in *.
  assert (H : projected op items w
              = (w, indexed_pairs fv fw items 0, None))
    by apply projected_pure.
  unfold st. change (call op fresh) with (subscription true op).
  rewrite (subscription_items true op items w H). simpl fst. simpl snd.
  rewrite subscription_received.
  assert (Hlen : length (indexed_pairs fv fw items 0) = length items)
    by (eapply project_all_length; exact H).
  repeat split. exact Hlen.
Qed.

(** ** What is received, on any sequence of signals *)

Lemma values_only_well_formed (l : list (Notification num)) :
  forallb is_value l = true -> well_formed l = true.
Proof.
  induction l as [|[y|e|] l IH]; simpl; intros H;
    [reflexivity | exact (IH H) | discriminate | discriminate].
Qed.

Lemma values_only_closed (l : list (Notification num))
    (n : Notification num) :
  forallb is_value l = true -> well_formed (l ++ [n]) = true.
Proof.
  induction l as [|[y|e|] l IH]; simpl; intros H;
    [destruct n; reflexivity | exact (IH H) | discriminate | discriminate].
Qed.

Lemma values_only_app (l l' : list (Notification num)) :
  forallb is_value l = true -> forallb is_value l' = true ->
  forallb is_value (l ++ l') = true.
Proof.
  intros H H'. rewrite forallb_app, H, H'. reflexivity.
Qed.

Lemma well_formed_values (l l' : list (Notification num))
    (n : Notification num) :
  forallb is_value l = true -> forallb is_value l' = true ->
  well_formed (l ++ l' ++ [n]) = true.
Proof.
  intros H H'. rewrite app_assoc.
  apply values_only_closed, values_only_app; assumption.
Qed.

Lemma unsubscribe_received this :
  received (destination (destination_unsubscribe this))
  = received (destination this).
Proof.
  open_subscriber this. unfold destination_unsubscribe, unsubscribe; simpl.
  match goal with |- context [if ?c then _ else _] => destruct c end;
    reflexivity.
Qed.

Lemma deliver_settled_trace this w (s : Signal num) :
  settled_trace this -> settled_trace (fst (deliver (this, w) s)).
Proof.
  intros [[Ha Hv]|[Ht Hwf]].
  - destruct s; cbn [deliver fst snd].
    + destruct (projections (project this) (projectWeight this)
                  (thisArg this) x (count this) w)
        as [w1 [e|[v wt]]] eqn:Hx.
      * rewrite (@next_throws num N World this w x w1 e Ha Hx). cbn [fst].
        right. split; [now apply destination_error_terminal|].
        rewrite destination_error_received by exact Ha.
        now apply values_only_closed.
      * rewrite (@next_returns num N World this w x w1 v wt Ha Hx).
        cbn [fst].
        left. split; [now rewrite advanced_active|].
        unfold advanced. simpl.
        apply values_only_app; [exact Hv|].
        destruct (isRunning this); reflexivity.
    + right. split; [now apply error_terminal|].
      rewrite error_received by exact Ha. now apply values_only_closed.
    + right. split; [now apply complete_terminal|].
      rewrite complete_received by exact Ha.
      apply well_formed_values; [exact Hv|].
      destruct (isRunning this); reflexivity.
    + right. split; [now apply unsubscribe_terminal|].
      rewrite unsubscribe_received. now apply values_only_well_formed.
  - rewrite (@terminal_deliver num N World this w s Ht).
    right. split; assumption.
Qed.

Lemma run_settled_trace (signals : list (Signal num)) :
  forall this w,
    settled_trace this -> settled_trace (fst (run signals (this, w))).
Proof.
  induction signals as [|s signals IH]; intros this w H; [exact H|].
  rewrite run_cons.
  destruct (deliver (this, w) s) as [this' w'] eqn:Hd.
  apply IH. change this' with (fst (this', w')). rewrite <- Hd.
  now apply deliver_settled_trace.
Qed.

(** X6: whatever the source and the downstream subscriber do, in any
    order and even after the end of the subscription, what the downstream
    subscriber receives is a sequence of values followed by at most one
    error or completion, and nothing after it.  In either emit mode. *)
Theorem received_is_well_formed b (op : AverageOperator num World)
    (signals : list (Signal num)) w :
  well_formed
    (received (destination (fst (run signals (subscription b op, w)))))
  = true.
Proof.
  assert (H : settled_trace (fst (run signals (subscription b op, w)))).
  { apply run_settled_trace. left. split; reflexivity. }
  destruct H as [[_ H]|[_ H]]; [now apply values_only_well_formed | exact H].
Qed.

(** ** The count *)

Lemma values_app (l l' : list (Notification num)) :
  values (l ++ l') = values l ++ values l'.
Proof. apply filter_app. Qed.

Lemma deliver_counted_trace this w (s : Signal num) :
  counted_trace this -> counted_trace (fst (deliver (this, w) s)).
Proof.
  intros (Hr & Hc & Hs).
  destruct (deliver_configuration (this, w) s) as (_ & _ & _ & Hr').
  split; [now rewrite Hr'|].
  split; [|now apply deliver_settled].
  apply orb_true_iff in Hs. destruct Hs as [Ha|Ht].
  - destruct s; cbn [deliver fst snd].
    + destruct (projections (project this) (projectWeight this)
                  (thisArg this) x (count this) w)
        as [w1 [e|[v wt]]] eqn:Hx.
      * rewrite (@next_throws num N World this w x w1 e Ha Hx). cbn [fst].
        rewrite destination_error_received by exact Ha.
        rewrite values_app, length_app, Nat.add_0_r, <- Hc.
        flags Ha. open_subscriber this. reflexivity.
      * rewrite (@next_returns num N World this w x w1 v wt Ha Hx).
        cbn [fst]. unfold advanced. simpl. rewrite Hr.
        rewrite values_app, length_app, <- Hc. reflexivity.
    + rewrite error_received by exact Ha.
      rewrite values_app, length_app, Nat.add_0_r, <- Hc.
      flags Ha. open_subscriber this. reflexivity.
    + rewrite complete_received by exact Ha. rewrite Hr.
      rewrite values_app, length_app, Nat.add_0_r, <- Hc.
      flags Ha. open_subscriber this. reflexivity.
    + rewrite unsubscribe_received, <- Hc.
      flags Ha. open_subscriber this. reflexivity.
  - rewrite (@terminal_deliver num N World this w s Ht). exact Hc.
Qed.

(** X7: in running mode [count] is the number of values sent
    downstream, at every point of every subscription: an item adds one to
    both or, when a projection throws, to neither; errors, completion and
    unsubscription change neither. *)
Theorem count_is_values_sent (op : AverageOperator num World)
    (signals : list (Signal num)) w :
  let this := fst (run signals (call op fresh, w)) in
  count this = length (values (received (destination this))).
Proof.
  assert (H : forall l this w0,
             counted_trace this ->
             counted_trace (fst (run l (this, w0)))).
  { induction l as [|s l IH]; intros this w0 Hc; [exact Hc|].
    rewrite run_cons.
    destruct (deliver (this, w0) s) as [this' w'] eqn:Hd.
    apply IH. change this' with (fst (this', w')). rewrite <- Hd.
    now apply deliver_counted_trace. }
  apply (H signals (call op fresh) w). repeat split.
Qed.

(** ** The emit mode *)

Lemma deliver_same_average (a b : AverageSubscriber num World) w
    (s : Signal num) :
  same_average a b ->
  same_average (fst (deliver (a, w) s)) (fst (deliver (b, w) s))
  /\ snd (deliver (a, w) s) = snd (deliver (b, w) s).
Proof.
  unfold same_average. intros H.
  destruct a as [[sa ra] ? ? ? ? ? ? ma ? ?].
  destruct b as [[sb rb] ? ? ? ? ? ? mb ? ?].
  simpl in H. destruct H as (? & ? & ? & ? & ? & ? & ? & ? & ?). subst.
  destruct s; simpl;
    unfold next, _next, error, _error, complete, _complete,
      destination_unsubscribe, destination_error, destination_complete,
      destination_next, unsubscribe; simpl;
    repeat match goal with
           | |- context [match ?c with (_, _) => _ end] =>
               destruct c as [? [?|?]]; simpl
           | |- context [negb ?c] => is_var c; destruct c; simpl
           | |- context [if ?c then _ else _] =>
               is_var c; destruct c; simpl
           end; repeat split.
Qed.

(** X8: the emit mode decides what is sent downstream and nothing else.
    On the same signals, a final-only subscription and a running one go
    through the same [count], [value] and [sumWeights], stop and close at
    the same time, and make the same projection calls. *)
Theorem mode_changes_emissions_only b (op : AverageOperator num World)
    (signals : list (Signal num)) w :
  same_average (fst (run signals (subscription b op, w)))
    (fst (run signals (call op fresh, w)))
  /\ snd (run signals (subscription b op, w))
     = snd (run signals (call op fresh, w)).
Proof.
  assert (H : forall l (p q : AverageSubscriber num World) w0,
             same_average p q ->
             same_average (fst (run l (p, w0))) (fst (run l (q, w0)))
             /\ snd (run l (p, w0)) = snd (run l (q, w0))).
  { induction l as [|s l IH]; intros p q w0 Hpq; [split; trivial|].
    rewrite !run_cons.
    destruct (deliver_same_average w0 s Hpq) as [Hs Hw].
    destruct (deliver (p, w0) s) as [p' wp].
    destruct (deliver (q, w0) s) as [q' wq].
    simpl in Hs, Hw. subst wq. now apply IH. }
  apply H. repeat split.
Qed.

Lemma deliver_final_trace this w (s : Signal num) :
  final_trace this -> final_trace (fst (deliver (this, w) s)).
Proof.
  intros (Hr & H).
  destruct (deliver_configuration (this, w) s) as (_ & _ & _ & Hr').
  split; [now rewrite Hr'|].
  destruct H as [[Ha He]|[Ht Hl]].
  - destruct s; cbn [deliver fst snd].
    + destruct (projections (project this) (projectWeight this)
                  (thisArg this) x (count this) w)
        as [w1 [e|[v wt]]] eqn:Hx.
      * rewrite (@next_throws num N World this w x w1 e Ha Hx). cbn [fst].
        right. split; [now apply destination_error_terminal|].
        rewrite destination_error_received by exact Ha.
        rewrite He. simpl. lia.
      * rewrite (@next_returns num N World this w x w1 v wt Ha Hx).
        cbn [fst]. left. split; [now rewrite advanced_active|].
        unfold advanced. simpl. now rewrite Hr, He.
    + right. split; [now apply error_terminal|].
      rewrite error_received by exact Ha. rewrite He. simpl. lia.
    + right. split; [now apply complete_terminal|].
      rewrite complete_received by exact Ha. rewrite Hr, He. simpl. lia.
    + right. split; [now apply unsubscribe_terminal|].
      rewrite unsubscribe_received, He. simpl. lia.
  - rewrite (@terminal_deliver num N World this w s Ht).
    right. split; assumption.
Qed.

(** X12: in final-only mode at most one value is ever sent downstream,
    whatever the signals: no item emits, and only the first completion
    does. *)
Theorem final_only_sends_one_value (op : AverageOperator num World)
    (signals : list (Signal num)) w :
  (length
     (values
        (received
           (destination (fst (run signals (subscription false op, w))))))
   <= 1)%nat.
Proof.
  assert (H : forall l this w0,
             final_trace this -> final_trace (fst (run l (this, w0)))).
  { induction l as [|s l IH]; intros this w0 Hf; [exact Hf|].
    rewrite run_cons.
    destruct (deliver (this, w0) s) as [this' w'] eqn:Hd.
    apply IH. change this' with (fst (this', w')). rewrite <- Hd.
    now apply deliver_final_trace. }
  destruct (H signals (subscription false op) w) as (_ & [[_ He]|[_ Hl]]).
  - split; [reflexivity|]. left. split; reflexivity.
  - rewrite He. simpl. lia.
  - exact Hl.
Qed.

End Callers_facts.

(** * Division by zero and NaN in binary64 *)

Section Binary64.

Variable World : Type.

Local Open Scope float_scope.

Lemma nan_add_l (x : float) : nan + x = nan.
Proof. apply Prim2SF_inj. rewrite add_spec. reflexivity. Qed.

Lemma nan_add_r (x : float) : x + nan = nan.
Proof.
  apply Prim2SF_inj. rewrite add_spec.
  change (Prim2SF nan) with S754_nan. destruct (Prim2SF x); reflexivity.
Qed.

Lemma nan_sub_l (x : float) : nan - x = nan.
Proof. apply Prim2SF_inj. rewrite sub_spec. reflexivity. Qed.

Lemma nan_sub_r (x : float) : x - nan = nan.
Proof.
  apply Prim2SF_inj. rewrite sub_spec.
  change (Prim2SF nan) with S754_nan. destruct (Prim2SF x); reflexivity.
Qed.

Lemma nan_mul_l (x : float) : nan * x = nan.
Proof. apply Prim2SF_inj. rewrite mul_spec. reflexivity. Qed.

Lemma nan_mul_r (x : float) : x * nan = nan.
Proof.
  apply Prim2SF_inj. rewrite mul_spec.
  change (Prim2SF nan) with S754_nan. destruct (Prim2SF x); reflexivity.
Qed.

(** A running average that is NaN stays NaN. *)
Lemma update_from_nan (sw v w : float) :
  update (nan, sw) (v, w) = (nan, sw + w).
Proof.
  unfold update. simpl. now rewrite nan_sub_r, nan_mul_r, nan_add_l.
Qed.

(** A value that is NaN makes the running average NaN. *)
Lemma update_with_nan (avg sw w : float) :
  update (avg, sw) (nan, w) = (nan, sw + w).
Proof.
  unfold update. simpl. now rewrite nan_sub_l, nan_mul_r, nan_add_r.
Qed.

(** A zero weight on a zero sum of weights divides [0] by [0]. *)
Lemma update_zero_by_zero (avg v : float) :
  update (avg, 0) (v, 0) = (nan, 0).
Proof.
  unfold update. simpl.
  change (0 + 0) with 0. change (0 / 0) with nan.
  now rewrite nan_mul_l, nan_add_r.
Qed.

Lemma averages_from_nan (pairs : list (float * float)) :
  forall sw,
    averages_from (nan, sw) pairs = repeat nan (length pairs).
Proof.
  induction pairs as [|[v w] ps IH]; intros sw; [reflexivity|].
  cbn [averages_from length repeat].
  rewrite update_from_nan. cbn [fst]. now rewrite IH.
Qed.

Lemma averages_from_app (l1 l2 : list (float * float)) :
  forall acc,
    averages_from acc (l1 ++ l2)
    = averages_from acc l1 ++ averages_from (fold_left update l1 acc) l2.
Proof.
  induction l1 as [|p l1 IH]; intros acc; [reflexivity|].
  cbn [app averages_from fold_left]. now rewrite IH.
Qed.

(** X9: a first item of weight [0] divides [0] by [0]: its average is
    NaN, and so is every later one, whatever the values and the weights
    that follow. *)
Theorem zero_first_weight_gives_nan (op : AverageOperator float World)
    (items : list (JsValue float)) (w0 w1 : World) (v : float)
    (rest : list (float * float)) :
  projected op items w0 = (w1, (v, 0) :: rest, None) ->
  received
    (destination
       (fst (run (map (@UpNext float) items) (call op fresh, w0))))
  = repeat (Next nan) (length items).
Proof.
  intros H.
  change (call op fresh) with (subscription true op).
  rewrite (subscription_items true op items w0 H). cbn [fst].
  rewrite subscription_received.
  assert (Hlen : length ((v, 0) :: rest) = length items)
    by (eapply project_all_length; exact H).
  rewrite <- Hlen.
  unfold running_averages. cbn [averages_from length repeat map].
  change (@num_zero float binary64) with 0.
  rewrite update_zero_by_zero. cbn [fst].
  rewrite averages_from_nan, map_repeat. reflexivity.
Qed.

(** X10: an item whose projected value is NaN makes its own average and
    every later one NaN; the averages sent before it are not affected. *)
Theorem nan_value_is_absorbing (op : AverageOperator float World)
    (items : list (JsValue float)) (w0 w1 : World) (wt : float)
    (before after : list (float * float)) :
  projected op items w0 = (w1, before ++ (nan, wt) :: after, None) ->
  received
    (destination
       (fst (run (map (@UpNext float) items) (call op fresh, w0))))
  = map (@Next float) (running_averages before)
    ++ repeat (Next nan) (S (length after)).
Proof.
  intros H.
  change (call op fresh) with (subscription true op).
  rewrite (subscription_items true op items w0 H). cbn [fst].
  rewrite subscription_received.
  unfold running_averages. rewrite averages_from_app, map_app.
  f_equal.
  destruct (fold_left update before (_, _)) as [avg sw].
  cbn [averages_from]. rewrite update_with_nan. cbn [fst].
  rewrite averages_from_nan. cbn [map repeat]. now rewrite map_repeat.
Qed.

Lemma div_by_zero (w z : float) :
  is_zero z = true -> not_finite (w / z) = true.
Proof.
  unfold is_zero, not_finite. rewrite div_spec.
  destruct (Prim2SF z); try discriminate.
  intros _. destruct (Prim2SF w); reflexivity.
Qed.

Lemma mul_not_finite (t d : float) :
  not_finite t = true -> not_finite (t * d) = true.
Proof.
  unfold not_finite. rewrite mul_spec.
  destruct (Prim2SF t); try discriminate;
    intros _; destruct (Prim2SF d); reflexivity.
Qed.

Lemma add_not_finite (a y : float) :
  not_finite y = true -> not_finite (a + y) = true.
Proof.
  unfold not_finite. rewrite add_spec.
  destruct (Prim2SF y) as [| sy | |]; try discriminate; intros _;
    destruct (Prim2SF a) as [| sa | |]; try reflexivity.
  destruct sa, sy; reflexivity.
Qed.

(** The update when the sum of the weights becomes zero. *)
Lemma update_on_zero_sum (avg sw v w : float) :
  is_zero (sw + w) = true ->
  not_finite (fst (update (avg, sw) (v, w))) = true.
Proof.
  intros H. unfold update. simpl.
  now apply add_not_finite, mul_not_finite, div_by_zero.
Qed.

(** X13: the division by the sum of the weights is not guarded.  At an
    item that brings the sum of the weights to zero (weights that cancel,
    or a zero weight on a zero sum), the average sent downstream is NaN
    or an infinity, whatever the values. *)
Theorem zero_sum_of_weights_is_not_finite (op : AverageOperator float World)
    (items : list (JsValue float)) (w0 w1 : World) (v w : float)
    (before after : list (float * float)) :
  projected op items w0 = (w1, before ++ (v, w) :: after, None) ->
  is_zero (snd (incremental before) + w) = true ->
  exists x,
    nth_error
      (received
         (destination
            (fst (run (map (@UpNext float) items) (call op fresh, w0)))))
      (length before) = Some (Next x)
    /\ not_finite x = true.
Proof.
  intros H Hz.
  change (call op fresh) with (subscription true op).
  rewrite (subscription_items true op items w0 H). cbn [fst].
  rewrite subscription_received.
  unfold running_averages. rewrite averages_from_app, map_app.
  rewrite nth_error_app2
    by (rewrite length_map, averages_from_length; apply Nat.le_refl).
  rewrite length_map, averages_from_length, Nat.sub_diag.
  unfold incremental in Hz.
  destruct (fold_left update before (_, _)) as [avg sw].
  cbn [averages_from map nth_error].
  eexists. split; [reflexivity|].
  now apply update_on_zero_sum.
Qed.

End Binary64.


(** * The further properties on sample subscriptions *)

Module More_runs.

Import Samples Degenerate.

(** X3 with [thisArg = 0]. *)
Lemma falsy_thisArg_is_dropped_witness :
  truthy (JsNumber 0%float) = false
  /\ run (map (@UpNext float) abc)
       (call (average (World := unit) (Plain JsUndefined)
                (Plain JsUndefined) (JsNumber 0%float)) fresh, tt)
     = run (map (@UpNext float) abc)
         (call (average (World := unit) (Plain JsUndefined)
                  (Plain JsUndefined) JsUndefined) fresh, tt).
Proof.
  split; [reflexivity|].
  exact (@falsy_thisArg_is_dropped float binary64 unit (Plain JsUndefined)
           (Plain JsUndefined) (JsNumber 0%float) fresh
           (map (@UpNext float) abc) tt eq_refl).
Defined.

(** X9 on [1, 2, 3] weighted by index: the weights are [0, 1, 2]. *)
Lemma zero_first_weight_gives_nan_witness :
  projected (World := unit) indexed abc tt
  = (tt, [(1, 0); (2, 1); (3, 2)]%float, None)
  /\ received
       (destination
          (fst (run (map (@UpNext float) abc)
                  (call (World := unit) indexed fresh, tt))))
     = [Next nan; Next nan; Next nan].
Proof.
  split; [reflexivity|].
  exact (@zero_first_weight_gives_nan unit indexed abc tt tt 1%float
           [(2, 1); (3, 2)]%float eq_refl).
Defined.

(** X10 on [1, NaN, 3] under the default projections. *)
Lemma nan_value_is_absorbing_witness :
  projected (World := unit) plain with_nan tt
  = (tt, [(1, 1)]%float ++ (nan, 1%float) :: [(3, 1)]%float, None)
  /\ received
       (destination
          (fst (run (map (@UpNext float) with_nan)
                  (call (World := unit) plain fresh, tt))))
     = [Next 1%float; Next nan; Next nan].
Proof.
  split; [reflexivity|].
  exact (@nan_value_is_absorbing unit plain with_nan tt tt 1%float
           [(1, 1)]%float [(3, 1)]%float eq_refl).
Defined.

(** X13 on [1, 2] with the weights [1, -1]. *)
Lemma zero_sum_of_weights_is_not_finite_witness :
  projected (World := unit) cancelled
    [JsNumber 1%float; JsNumber 2%float] tt
  = (tt, [(1, 1)]%float ++ (2, -1)%float :: [], None)
  /\ is_zero (snd (incremental [(1, 1)]%float) + -1)%float = true
  /\ exists x,
       nth_error
         (received
            (destination
               (fst (run (map (@UpNext float)
                            [JsNumber 1%float; JsNumber 2%float])
                       (call (World := unit) cancelled fresh, tt)))))
         1
       = Some (Next x)
       /\ not_finite x = true.
Proof.
  split; [reflexivity|]. split; [reflexivity|].
  exact (@zero_sum_of_weights_is_not_finite unit cancelled
           [JsNumber 1%float; JsNumber 2%float] tt tt 2%float (-1)%float
           [(1, 1)]%float [] eq_refl eq_refl).
Defined.

End More_runs.
